(** * React in Action: the cast gallery (ListCast.jsx) and the click counter
      (Counter, quoted in App.md)

    A shallow embedding of the two components and the properties their
    description states about them.

    - [JS]: the fragment of JavaScript values and operations the components
      use (property reads, [ToString] inside template literals, truthiness,
      [Array.prototype.map], thrown errors).
    - [Dom]: the element trees the JSX expressions build.
    - [ListCast]: the hook state, the asynchronous [fetchCast] and the render
      function of the gallery.
    - [Counter]: the counter button and its document-title effect.

    Numbers are modelled by [Z]: every number the components handle is an
    integer (a status code, a click count, an array length), and on integers of
    magnitude below 2^53 JavaScript arithmetic and [ToString] agree with the
    integer operations used here.  Strings are [string]. *)

From Stdlib Require Import ZArith String List Bool DecimalString Lia.
Import ListNotations.

Set Warnings "-register-all".

Local Open Scope list_scope.
Local Open Scope string_scope.

(* ================================================================= *)
(** ** JavaScript values *)

Module JS.

(** Values: what [JSON.parse] can produce, plus [undefined] (the result of
    reading a missing property). *)
Inductive value : Type :=
| Undefined
| Null
| Bool (b : bool)
| Num (n : Z)
| Str (s : string)
| Arr (items : list value)
| Obj (fields : list (string * value)).

(** A thrown error object; the components read only [message]. *)
Record thrown : Type := Thrown { error_name : string; message : string }.

Definition Error (msg : string) : thrown := Thrown "Error" msg.
Definition TypeError (msg : string) : thrown := Thrown "TypeError" msg.

(** The outcome of evaluating an expression, and of a settled promise once it
    is awaited: a value, or a thrown error. *)
Inductive completion (A : Type) : Type :=
| Normal (a : A)
| Throws (e : thrown).
Arguments Normal {A} a.
Arguments Throws {A} e.

Definition bind {A B} (c : completion A) (k : A -> completion B) : completion B :=
  match c with
  | Normal a => k a
  | Throws e => Throws e
  end.

(** [Number::toString] on integers. *)
Definition number_to_string (n : Z) : string :=
  NilZero.string_of_int (Z.to_int n).

(** [ToString], as a template literal applies it to [${...}]. *)
Fixpoint to_string (v : value) : string :=
  match v with
  | Undefined => "undefined"
  | Null => "null"
  | Bool true => "true"
  | Bool false => "false"
  | Num n => number_to_string n
  | Str s => s
  | Arr items =>
      (* Array.prototype.join(","): null and undefined items print empty *)
      let item x := match x with
                    | Undefined | Null => ""
                    | _ => to_string x
                    end in
      (fix join (l : list value) : string :=
         match l with
         | [] => ""
         | [x] => item x
         | x :: rest => item x ++ "," ++ join rest
         end) items
  | Obj _ => "[object Object]"
  end.

(** [ToBoolean]: what [if (v)] and [v && ...] test. *)
Definition truthy (v : value) : bool :=
  match v with
  | Undefined | Null => false
  | Bool b => b
  | Num n => negb (n =? 0)%Z
  | Str s => negb (s =? "")
  | Arr _ | Obj _ => true
  end.

(** [v === n] for a number literal [n]. *)
Definition strict_eq_num (v : value) (n : Z) : bool :=
  match v with
  | Num m => (m =? n)%Z
  | _ => false
  end.

(** Own properties of an object, first binding of the key. *)
Fixpoint lookup (p : string) (fields : list (string * value)) : option value :=
  match fields with
  | [] => None
  | (k, v) :: rest => if k =? p then Some v else lookup p rest
  end.

(** [v.p] for the property names the components read ([length], [id], [name],
    [slug]): reading from [null] or [undefined] throws, a missing property is
    [undefined], arrays and strings have a [length].  The wording of the
    messages of such TypeErrors is the engine's; nothing depends on it. *)
Definition get (v : value) (p : string) : completion value :=
  match v with
  | Undefined | Null =>
      Throws (TypeError ("Cannot read properties of " ++ to_string v
                         ++ " (reading '" ++ p ++ "')"))
  | Obj fields =>
      Normal (match lookup p fields with Some x => x | None => Undefined end)
  | Arr items =>
      Normal (if p =? "length" then Num (Z.of_nat (List.length items))
              else Undefined)
  | Str s =>
      Normal (if p =? "length" then Num (Z.of_nat (String.length s))
              else Undefined)
  | Bool _ | Num _ => Normal Undefined
  end.

(** The callback of [map] applied to the items in order; the first item on
    which it throws ends the call. *)
Fixpoint map_items {A} (f : value -> completion A) (items : list value)
  : completion (list A) :=
  match items with
  | [] => Normal []
  | x :: rest =>
      bind (f x) (fun y => bind (map_items f rest) (fun ys => Normal (y :: ys)))
  end.

(** The method call [v.map(f)]: only arrays have a [map] method; on any other
    value the call throws a [TypeError] (reading [map] from [null] or
    [undefined] throws, elsewhere [v.map] is not a function). *)
Definition call_map {A} (v : value) (f : value -> completion A)
  : completion (list A) :=
  match v with
  | Arr items => map_items f items
  | Undefined | Null =>
      Throws (TypeError ("Cannot read properties of " ++ to_string v
                         ++ " (reading 'map')"))
  | _ => Throws (TypeError "cast.map is not a function")
  end.

End JS.

(* ================================================================= *)
(** ** Element trees *)

Module Dom.

(** A function the parent passes down through props, known by its name. *)
Inductive callback : Type := Callback (name : string).

(** What an [onClick] attribute holds.  The two components only ever attach
    [RunFetchCast] (the gallery's buttons: [onClick={fetchCast}]) and
    [SetCount] (the counter: [onClick={() => setCount(count + 1)}], the
    argument being [count + 1] as computed by the render that built the
    element).  [Call] is a handler that applies a callback received from the
    parent to a value. *)
Inductive handler : Type :=
| RunFetchCast
| SetCount (n : Z)
| Call (f : callback) (arg : JS.value).

Inductive attr : Type :=
| AStr (s : string)                    (* "literal" or a template literal *)
| AVal (v : JS.value)                  (* {expression} *)
| ABool (b : bool)
| AStyle (decls : list (string * string))
| AHandler (h : handler).

Inductive node : Type :=
| Text (s : string)
| Nothing                              (* {false}: nothing is rendered *)
| Element (tag : string) (key : option JS.value)
          (attrs : list (string * attr)) (children : list node).

Fixpoint attr_of (a : string) (attrs : list (string * attr)) : option attr :=
  match attrs with
  | [] => None
  | (k, v) :: rest => if k =? a then Some v else attr_of a rest
  end.

(** The attribute [a] of an element. *)
Definition attribute (a : string) (n : node) : option attr :=
  match n with
  | Element _ _ attrs _ => attr_of a attrs
  | _ => None
  end.

(** The handler a click on this very element runs, if it has one. *)
Definition on_click (n : node) : option handler :=
  match attribute "onClick" n with
  | Some (AHandler h) => Some h
  | _ => None
  end.

(** Every click handler attached anywhere in a tree, in document order. *)
Fixpoint handlers (n : node) : list handler :=
  match n with
  | Element _ _ _ children =>
      (match on_click n with Some h => [h] | None => [] end
       ++ flat_map handlers children)%list
  | _ => []
  end.

(** The elements with a given tag, in document order. *)
Fixpoint by_tag (t : string) (n : node) : list node :=
  match n with
  | Element tag _ _ children =>
      ((if tag =? t then [n] else []) ++ flat_map (by_tag t) children)%list
  | _ => []
  end.

(** The text a tree displays. *)
Fixpoint text_content (n : node) : string :=
  match n with
  | Text s => s
  | Nothing => ""
  | Element _ _ _ children => String.concat "" (map text_content children)
  end.

(** Every element of a tree, in document order. *)
Fixpoint elements (n : node) : list node :=
  match n with
  | Element _ _ _ children => n :: flat_map elements children
  | _ => []
  end.

(** [disabled={true}]: the control takes no click. *)
Definition disabled (n : node) : bool :=
  match attribute "disabled" n with
  | Some (ABool b) => b
  | _ => false
  end.


End Dom.

(* ================================================================= *)
(** ** The gallery: ListCast.jsx *)

Module ListCast.
Import JS Dom.

(** The three [useState] cells of the component. *)
Record Hooks : Type := {
  cast : value;
  loading : bool;
  error : option string          (* null, or a message *)
}.

(** [useState([])], [useState(true)], [useState(null)]. *)
Definition initial : Hooks :=
  {| cast := Arr []; loading := true; error := None |}.

(** What [await fetch(url)] delivers: [response.ok], [response.status], and
    what [await response.json()] will deliver. *)
Record Response : Type := {
  ok : bool;
  status : Z;
  json : completion value
}.

(** The network decides how [fetch(url)] settles. *)
Definition Network : Type := string -> completion Response.

(** A response as the Fetch standard builds it: [ok] holds exactly for the
    statuses 200 to 299. *)
Definition http_response (code : Z) (body : completion value) : Response :=
  {| ok := (200 <=? code)%Z && (code <=? 299)%Z; status := code; json := body |}.

(** *** The effects of an asynchronous function

    An invocation threads the hook cells and keeps a log: one entry for the
    cells after each setter call, one for the cells at each [await], where the
    function is suspended and the component shows that state.  An invocation
    is followed on its own: nothing else writes the cells between its
    steps. *)

Inductive event : Type :=
| Wrote (h : Hooks)
| Awaiting (h : Hooks).

Definition cells (e : event) : Hooks :=
  match e with Wrote h | Awaiting h => h end.

Record Run : Type := { hooks : Hooks; log : list event }.

Definition Async (A : Type) : Type := Run -> completion A * Run.

Definition ret {A} (a : A) : Async A := fun r => (Normal a, r).

Definition throw {A} (e : thrown) : Async A := fun r => (Throws e, r).

Definition seq {A B} (m : Async A) (k : A -> Async B) : Async B :=
  fun r =>
    match m r with
    | (Normal a, r') => k a r'
    | (Throws e, r') => (Throws e, r')
    end.

Declare Scope async_scope.
Delimit Scope async_scope with async.
Notation "x <- m ;; k" := (seq m (fun x => k))
  (at level 61, m at next level, right associativity) : async_scope.
Notation "m ;; k" := (seq m (fun _ => k))
  (at level 61, right associativity) : async_scope.

Definition write (h : Hooks) : Async unit :=
  fun r => (Normal tt, {| hooks := h; log := (log r ++ [Wrote h])%list |}).

Definition setCast (v : value) : Async unit :=
  fun r => write {| cast := v; loading := loading (hooks r);
                    error := error (hooks r) |} r.

Definition setLoading (b : bool) : Async unit :=
  fun r => write {| cast := cast (hooks r); loading := b;
                    error := error (hooks r) |} r.

Definition setError (e : option string) : Async unit :=
  fun r => write {| cast := cast (hooks r); loading := loading (hooks r);
                    error := e |} r.

(** [await p]: the function is suspended in the current state, then resumes
    with the value of the promise or with its rejection thrown. *)
Definition await {A} (p : completion A) : Async A :=
  fun r => (p, {| hooks := hooks r;
                  log := (log r ++ [Awaiting (hooks r)])%list |}).

(** [try { body } catch (err) { handler }] *)
Definition try_catch {A} (body : Async A) (handler : thrown -> Async A)
  : Async A :=
  fun r =>
    match body r with
    | (Normal a, r') => (Normal a, r')
    | (Throws e, r') => handler e r'
    end.

(** [try { body } finally { cleanup }] *)
Definition try_finally {A} (body : Async A) (cleanup : Async unit) : Async A :=
  fun r =>
    match body r with
    | (c, r') =>
        match cleanup r' with
        | (Normal _, r'') => (c, r'')
        | (Throws e, r'') => (Throws e, r'')
        end
    end.

(** *** fetchCast *)

Definition fetchCast (fetch : Network) : Async unit :=
  (try_finally
     (try_catch
        (setLoading true ;;
         setError None ;;
         response <- await (fetch "cast.json") ;;
         (if negb (ok response)
          then throw (Error ("HTTP error! status: "
                             ++ number_to_string (status response)))
          else ret tt) ;;
         data <- await (json response) ;;
         setCast data)
        (fun err => setError (Some (message err))))
     (setLoading false))%async.

(** One invocation, started with the cells [h]. *)
Definition invoke (fetch : Network) (h : Hooks) : completion unit * Run :=
  fetchCast fetch {| hooks := h; log := [] |}.

(** The cells once the invocation has completed. *)
Definition settled (fetch : Network) (h : Hooks) : Hooks :=
  hooks (snd (invoke fetch h)).

(** The cells it went through, in order. *)
Definition history (fetch : Network) (h : Hooks) : list event :=
  log (snd (invoke fetch h)).

(** [useEffect(() => { fetchCast(); }, [])]: the first invocation, on mount. *)
Definition mounted (fetch : Network) : Hooks := settled fetch initial.

(** *** The render function *)

(** What a parent may pass: [<ListCast onChoice={...} />]. *)
Record Props : Type := { onChoice : option callback }.

Definition loading_view : node :=
  Element "p" None [] [Text "Loading cast..."].

Definition error_view (msg : string) : node :=
  Element "div" None [("style", AStyle [("color", "red")])]
    [ Element "p" None [] [Text "Failed to load cast: "; Text msg];
      Element "button" None [("onClick", AHandler RunFetchCast)]
        [Text "Retry"] ].

Definition spinner : node :=
  Element "Spinner" None
    [("animation", AStr "border"); ("size", AStr "sm");
     ("className", AStr "me-2")] [].

Definition refresh_button (busy : bool) : node :=
  Element "button" None
    [("onClick", AHandler RunFetchCast); ("disabled", ABool busy);
     ("style", AStyle [("marginBottom", "1rem")])]
    [ if busy then spinner else Nothing;
      Text (if busy then "Refreshing..." else "Refresh Cast") ].

(** The callback given to [cast.map]. *)
Definition thumbnail (member : value) : completion node :=
  bind (get member "id") (fun key =>
  bind (get member "name") (fun tooltip =>
  bind (get member "slug") (fun slug =>
  bind (get member "name") (fun alt =>
    Normal
      (Element "a" (Some key) [("data-tooltip", AVal tooltip)]
         [Element "img" None
            [("src", AStr ("images/" ++ to_string slug ++ "_tn.svg"));
             ("alt", AVal alt)] []]))))).

Definition grid (thumbs : list node) : node :=
  Element "div" None
    [("style", AStyle [("display", "grid");
                       ("gridTemplateColumns",
                        "repeat(auto-fill, minmax(90px, 1fr))");
                       ("gap", "1rem");
                       ("marginBottom", "1rem")])]
    thumbs.

Definition gallery_view (busy : bool) (thumbs : list node) : node :=
  Element "div" None [] [refresh_button busy; grid thumbs].

(** [function ListCast()] declares no parameter: the props object React
    passes is never read. *)
Definition ListCast (props : Props) (h : Hooks) : completion node :=
  let gallery :=
    bind (call_map (cast h) thumbnail) (fun thumbs =>
      Normal (gallery_view (loading h) thumbs)) in
  bind (if loading h
        then bind (get (cast h) "length") (fun n => Normal (strict_eq_num n 0))
        else Normal false)
    (fun waiting =>
       if waiting then Normal loading_view
       else match error h with
            | Some msg => if truthy (Str msg) then Normal (error_view msg)
                          else gallery
            | None => gallery
            end).

(** *** The vocabulary of the description *)

(** A cast member: an opaque identifier, a display name and a slug. *)
Record CastMember : Type := {
  member_id : value;
  member_name : string;
  member_slug : string
}.

(** A value is a cast-member record when it is an object with an [id], a
    string [name] and a string [slug] (and possibly more fields). *)
Definition record_of (v : value) : option CastMember :=
  match v with
  | Obj fields =>
      match lookup "id" fields, lookup "name" fields, lookup "slug" fields with
      | Some i, Some (Str n), Some (Str s) =>
          Some {| member_id := i; member_name := n; member_slug := s |}
      | _, _, _ => None
      end
  | _ => None
  end.

Fixpoint records_of (items : list value) : option (list CastMember) :=
  match items with
  | [] => Some []
  | v :: rest =>
      match record_of v, records_of rest with
      | Some m, Some ms => Some (m :: ms)
      | _, _ => None
      end
  end.

(** A well-formed collection: an array of cast-member records. *)
Definition collection_of (v : value) : option (list CastMember) :=
  match v with
  | Arr items => records_of items
  | _ => None
  end.

(** The thumbnail of a member: keyed by the id, the name as tooltip and as
    alternative text, the image at images/{slug}_tn.svg. *)
Definition thumbnail_of (m : CastMember) : node :=
  Element "a" (Some (member_id m)) [("data-tooltip", AVal (Str (member_name m)))]
    [Element "img" None
       [("src", AStr ("images/" ++ member_slug m ++ "_tn.svg"));
        ("alt", AVal (Str (member_name m)))] []].

(** The four ways an invocation can go, read off the network's answer. *)
Inductive exit_path : Type :=
| Fetched (data : value)               (* 2xx, body parsed *)
| BadStatus (code : Z)                 (* response.ok is false *)
| TransportFailure (e : thrown)        (* fetch() rejected *)
| ParseFailure (e : thrown).           (* response.json() rejected *)

Definition path (fetch : Network) : exit_path :=
  match fetch "cast.json" with
  | Throws e => TransportFailure e
  | Normal r =>
      if ok r
      then match json r with
           | Normal data => Fetched data
           | Throws e => ParseFailure e
           end
      else BadStatus (status r)
  end.

(** The collection was replaced by the fetched data and the error is null. *)
Definition updated (fetch : Network) (after : Hooks) : Prop :=
  exists data, path fetch = Fetched data /\ cast after = data /\ error after = None.

(** The error is a message and the collection is what it was. *)
Definition failed (before after : Hooks) : Prop :=
  exists msg, error after = Some msg /\ cast after = cast before.

(** The first test of the render function holds: a fetch is in flight and the
    collection is still the empty array. *)
Definition waiting (h : Hooks) : Prop :=
  loading h = true /\ cast h = Arr [].

(** The second test, [if (error)], holds: the error cell is a message, and not
    the empty one. *)
Definition error_set (h : Hooks) (msg : string) : Prop :=
  error h = Some msg /\ msg <> "".

(** [needle] occurs in [text]. *)
Definition contains (needle text : string) : Prop :=
  exists before after, text = before ++ needle ++ after.

(** Selection reporting: in the rendered gallery, a click on the thumbnail of
    a member calls the callback the parent supplied with that member. *)
Definition reports_selection (props : Props) (h : Hooks) : Prop :=
  forall f items busy thumbs i member t,
    onChoice props = Some f ->
    cast h = Arr items ->
    ListCast props h = Normal (gallery_view busy thumbs) ->
    nth_error items i = Some member ->
    nth_error thumbs i = Some t ->
    on_click t = Some (Call f member).

(** *** Successive invocations *)

(** Invocations one after the other, each started once the previous one has
    completed: the one of the mount effect, then one for each click on Retry
    or Refresh, each with the answer the network gives at that time. *)
Definition after (fetches : list Network) (h : Hooks) : Hooks :=
  fold_left (fun h fetch => settled fetch h) fetches h.

(** The data of the last invocation of the sequence that fetched some, or
    [default] when none did. *)
Definition last_fetched (fetches : list Network) (default : value) : value :=
  fold_left (fun d fetch => match path fetch with
                            | Fetched data => data
                            | _ => d
                            end) fetches default.

(** The states in which an invocation was suspended, in order. *)
Fixpoint suspensions (l : list event) : list Hooks :=
  match l with
  | [] => []
  | Awaiting s :: rest => s :: suspensions rest
  | Wrote _ :: rest => suspensions rest
  end.


End ListCast.

(* ================================================================= *)
(** ** The counter: Counter, in App.md *)

Module Counter.
Import JS Dom.

(** The page the component lives in; only its title matters. *)
Record Document : Type := { title : string }.

(** What the counter keeps: [pageTitle], read from [document.title] once when
    the module is loaded, and the [useState] cell [count]. *)
Record Instance : Type := {
  pageTitle : string;
  count : Z;
  document : Document
}.

(** The body of the effect:
    [count && (document.title = `${pageTitle}--${count}`)]. *)
Definition effect (pageTitle : string) (count : Z) (doc : Document)
  : Document :=
  if truthy (Num count)
  then {| title := pageTitle ++ "--" ++ to_string (Num count) |}
  else doc.

(** The render function. *)
Definition Counter (count : Z) : node :=
  Element "button" None [("onClick", AHandler (SetCount (count + 1)))]
    [ Text "Click Me ";
      Text (if strict_eq_num (Num count) 0 then ""
            else to_string (Num count) ++ " times") ].

(** A render with the cell at [n], followed by the effect, which has no
    dependency list and so runs after every render. *)
Definition rendered (i : Instance) (n : Z) : Instance :=
  {| pageTitle := pageTitle i; count := n;
     document := effect (pageTitle i) n (document i) |}.

(** Loading the module and mounting the component: [pageTitle] is captured,
    [useState(0)], first render. *)
Definition load (doc : Document) : Instance :=
  rendered {| pageTitle := title doc; count := 0; document := doc |} 0.

(** The user activates the button: its handler runs and the component renders
    again. *)
Definition click (i : Instance) : Instance :=
  match on_click (Counter (count i)) with
  | Some (SetCount n) => rendered i n
  | _ => i
  end.

(** What the button shows. *)
Definition displayed (i : Instance) : string :=
  text_content (Counter (count i)).

(** [n] activations in a row. *)
Definition clicks (n : nat) (i : Instance) : Instance :=
  Nat.iter n click i.

(** *** The rewrite of the effect proposed in the comment inside Counter

    [useEffect(() => { if (count) { document.title = ...; } },
               [count, pageTitle])]:
    the same assignment under an [if], run after the first render and after
    each render in which [count] or [pageTitle] differs from the render
    before. *)

Definition effect_if (pageTitle : string) (count : Z) (doc : Document)
  : Document :=
  if truthy (Num count)
  then {| title := pageTitle ++ "--" ++ to_string (Num count) |}
  else doc.

Definition rendered_with_deps (i : Instance) (n : Z) : Instance :=
  {| pageTitle := pageTitle i; count := n;
     document := if (n =? count i)%Z && (pageTitle i =? pageTitle i)
                 then document i
                 else effect_if (pageTitle i) n (document i) |}.

Definition load_with_deps (doc : Document) : Instance :=
  {| pageTitle := title doc; count := 0;
     document := effect_if (title doc) 0 doc |}.

(** What can make the counter render again: an activation of the button, or
    a render with the state unchanged (its parent rendered). *)
Inductive event : Type := Activate | Rerender.

Definition step (i : Instance) (e : event) : Instance :=
  match e with
  | Activate => click i
  | Rerender => rendered i (count i)
  end.

Definition step_with_deps (i : Instance) (e : event) : Instance :=
  match e with
  | Activate =>
      match on_click (Counter (count i)) with
      | Some (SetCount n) => rendered_with_deps i n
      | _ => i
      end
  | Rerender => rendered_with_deps i (count i)
  end.

End Counter.

(* ================================================================= *)
(** ** Sample data *)

Module Samples.
Import JS Dom ListCast.

Definition gregg : value :=
  Obj [("id", Num 1); ("name", Str "Gregg Bean"); ("slug", Str "gregg-bean");
       ("bio", Str "Plays the lead.")].

Definition ann : value :=
  Obj [("id", Num 2); ("name", Str "Ann Lee"); ("slug", Str "ann-lee")].

Definition members : list CastMember :=
  [ {| member_id := Num 1; member_name := "Gregg Bean";
       member_slug := "gregg-bean" |};
    {| member_id := Num 2; member_name := "Ann Lee";
       member_slug := "ann-lee" |} ].

(** The state after a first successful load. *)
Definition loaded : Hooks :=
  {| cast := Arr [gregg; ann]; loading := false; error := None |}.

(** A server that answers 200 with a body that parses to [data]. *)
Definition serves (data : value) : Network :=
  fun _ => Normal (http_response 200 (Normal data)).

(** A server that answers 404 with an HTML page. *)
Definition not_found : Network :=
  fun _ => Normal (http_response 404
                     (Throws (Thrown "SyntaxError"
                                "Unexpected token '<' is not valid JSON"))).

(** A parent that passes [onChoice={(info) => { setMemberInfo(info) }}]. *)
Definition parent : Props :=
  {| onChoice := Some (Callback "setMemberInfo") |}.

Definition page : Counter.Document := {| Counter.title := "React App" |}.

End Samples.

(* ================================================================= *)
(** ** What an invocation of fetchCast leaves behind *)

Import JS Dom ListCast.

(** Runs [fetchCast] symbolically, one goal per exit path. *)
Ltac run_fetchCast fetch :=
  unfold updated, failed, mounted;
  unfold settled, history, invoke, fetchCast, path, try_finally, try_catch,
    seq, await, setLoading, setError, setCast, write, throw, ret;
  cbn [fst snd hooks log cast loading error];
  let r := fresh "r" in
  let e := fresh "e" in
  let E := fresh "E" in
  destruct (fetch "cast.json") as [r|e] eqn:E;
  [ let K := fresh "K" in
    destruct (ok r) eqn:K;
    [ let J := fresh "J" in destruct (json r) as [?data|?e] eqn:J | ]
  | ];
  cbn [negb fst snd hooks log cast loading error app cells message].

(** The model at work: the first load, and a refresh answered by 404. *)
Example first_load :
  mounted (Samples.serves (Arr [Samples.gregg; Samples.ann])) = Samples.loaded.
Proof. reflexivity. Qed.

Example refresh_not_found :
  settled Samples.not_found Samples.loaded
  = {| cast := Arr [Samples.gregg; Samples.ann]; loading := false;
       error := Some "HTTP error! status: 404" |}.
Proof. reflexivity. Qed.

Example first_render :
  ListCast Samples.parent initial = Normal loading_view.
Proof. reflexivity. Qed.

(** An empty message does not pass [if (error)]: the gallery is shown. *)
Example empty_message_falls_through :
  ListCast Samples.parent {| cast := Arr []; loading := false; error := Some "" |}
  = Normal (gallery_view false []).
Proof. reflexivity. Qed.

(** Reading [length] from [null] throws out of the render function. *)
Example render_null_while_loading :
  exists e,
    ListCast Samples.parent {| cast := Null; loading := true; error := None |}
    = Throws e /\ error_name e = "TypeError".
Proof. eexists. split; reflexivity. Qed.

(** An invocation always completes: the promise [fetchCast()] returns is
    fulfilled, whatever the network does. *)
Lemma fetchCast_completes fetch h :
  fst (invoke fetch h) = Normal tt.
Proof. run_fetchCast fetch; reflexivity. Qed.

(** The first two things an invocation does: raise the loading flag, then
    clear the error; it is then suspended on the request. *)
Lemma fetchCast_prologue fetch h :
  exists rest,
    history fetch h =
      Wrote {| cast := cast h; loading := true; error := error h |}
      :: Wrote {| cast := cast h; loading := true; error := None |}
      :: Awaiting {| cast := cast h; loading := true; error := None |}
      :: rest.
Proof. run_fetchCast fetch; eexists; reflexivity. Qed.

(** C1.  Every invocation of fetchCast completes, and afterwards exactly one
    of two outcomes holds: the stored collection is the fetched data and the
    error is null (this is the case exactly when the request succeeded with a
    body that parsed), or the error is a message and the stored collection is
    what it was before the invocation.  The invocation begins by clearing the
    error: it is null by the time the request is awaited. *)
Theorem fetchCast_outcome fetch h :
  fst (invoke fetch h) = Normal tt /\
  (updated fetch (settled fetch h) \/ failed h (settled fetch h)) /\
  ~ (updated fetch (settled fetch h) /\ failed h (settled fetch h)) /\
  (updated fetch (settled fetch h) <-> exists data, path fetch = Fetched data) /\
  (exists rest,
     history fetch h =
       Wrote {| cast := cast h; loading := true; error := error h |}
       :: Wrote {| cast := cast h; loading := true; error := None |}
       :: Awaiting {| cast := cast h; loading := true; error := None |}
       :: rest).
Proof.
  split; [apply fetchCast_completes|].
  split; [|split; [|split; [|apply fetchCast_prologue]]].
  - run_fetchCast fetch.
    + left. exists data. auto.
    + right. eexists. split; reflexivity.
    + right. eexists. split; reflexivity.
    + right. eexists. split; reflexivity.
  - intros [[data [_ [_ Hnull]]] [msg [Hmsg _]]]. congruence.
  - run_fetchCast fetch; split;
      try (intros [d [Hd _]]; discriminate Hd);
      try (intros [d Hd]; discriminate Hd).
    + intros _. eexists. reflexivity.
    + intros _. exists data. auto.
Qed.

Lemma fetchCast_outcome_witness :
  failed Samples.loaded (settled Samples.not_found Samples.loaded) /\
  ~ updated Samples.not_found (settled Samples.not_found Samples.loaded).
Proof.
  destruct (fetchCast_outcome Samples.not_found Samples.loaded)
    as [_ [[Hu|Hf] [Hex _]]].
  - exfalso. destruct Hu as [data [Hp _]]. discriminate Hp.
  - split; [exact Hf|]. intros Hu. exact (Hex (conj Hu Hf)).
Defined.

(** C2.  On every exit path the loading flag is true in every state the
    invocation goes through (among them every state in which it is suspended
    on the request or on the body, and there is at least one), and the last
    thing the invocation does is to set the flag back to false; it always gets
    there. *)
Theorem fetchCast_loading fetch h :
  exists during,
    history fetch h = (during ++ [Wrote (settled fetch h)])%list /\
    Forall (fun e => loading (cells e) = true) during /\
    (exists s, In (Awaiting s) during) /\
    loading (settled fetch h) = false /\
    fst (invoke fetch h) = Normal tt.
Proof.
  run_fetchCast fetch.
  all: match goal with
       | |- exists d, ?l = (d ++ [?x])%list /\ _ =>
           exists (removelast l)
       end.
  all: cbn [removelast app].
  all: repeat split; try reflexivity.
  all: try (repeat constructor).
  all: eexists; cbn [In]; eauto.
Qed.

Lemma append_empty (s : string) : s ++ "" = s.
Proof. induction s as [|c s IH]; simpl; [reflexivity | now rewrite IH]. Qed.

(** C5.  When the request completes with a response whose [ok] is false and
    whose status is S, the invocation leaves the error set to the message
    "HTTP error! status: S", which contains the decimal digits of S, and
    leaves the stored collection as it was. *)
Theorem fetchCast_status_failure fetch h r :
  fetch "cast.json" = Normal r ->
  ok r = false ->
  error (settled fetch h)
    = Some ("HTTP error! status: " ++ number_to_string (status r)) /\
  (exists msg, error (settled fetch h) = Some msg /\
               contains (number_to_string (status r)) msg) /\
  cast (settled fetch h) = cast h.
Proof.
  intros Hr Hok.
  assert (Herr : error (settled fetch h)
                 = Some ("HTTP error! status: " ++ number_to_string (status r))).
  { run_fetchCast fetch; try congruence.
    injection Hr as <-. reflexivity. }
  split; [exact Herr|]. split.
  - eexists. split; [exact Herr|].
    exists "HTTP error! status: ", "".
    now rewrite append_empty.
  - run_fetchCast fetch; try reflexivity.
    injection Hr as <-. congruence.
Qed.

Lemma fetchCast_status_failure_witness :
  error (settled Samples.not_found Samples.loaded)
    = Some "HTTP error! status: 404" /\
  cast (settled Samples.not_found Samples.loaded) = cast Samples.loaded.
Proof.
  destruct (fetchCast_status_failure Samples.not_found Samples.loaded
              (http_response 404
                 (Throws (Thrown "SyntaxError"
                            "Unexpected token '<' is not valid JSON")))
              eq_refl eq_refl) as [He [_ Hc]].
  split; [exact He | exact Hc].
Defined.

(* ================================================================= *)
(** ** What the render function shows *)

(** On a cast-member record the callback of [cast.map] builds the member's
    thumbnail. *)
Lemma thumbnail_record v m :
  record_of v = Some m -> thumbnail v = Normal (thumbnail_of m).
Proof.
  destruct v as [ | | | | |items|fields]; try discriminate.
  unfold record_of, thumbnail, thumbnail_of, get.
  destruct (lookup "id" fields) as [i|]; [|discriminate].
  destruct (lookup "name" fields) as [[ | | | |n| | ]|]; try discriminate.
  destruct (lookup "slug" fields) as [[ | | | |s| | ]|]; try discriminate.
  intros [= <-]. reflexivity.
Qed.

Lemma map_items_records items members :
  records_of items = Some members ->
  map_items thumbnail items = Normal (map thumbnail_of members).
Proof.
  revert members.
  induction items as [|v items IH]; intros members; simpl.
  - intros [= <-]. reflexivity.
  - destruct (record_of v) as [m|] eqn:Hv; [|discriminate].
    destruct (records_of items) as [ms|]; [|discriminate].
    intros [= <-].
    rewrite (thumbnail_record _ _ Hv), (IH ms eq_refl). reflexivity.
Qed.

Lemma records_of_nil items :
  records_of items = Some [] -> items = [].
Proof.
  destruct items as [|v items]; [reflexivity|]. simpl.
  destruct (record_of v); [|discriminate].
  destruct (records_of items); discriminate.
Qed.

(** The first test of the render function, on an array. *)
Lemma waiting_test (busy : bool) items :
  (if busy
   then bind (get (Arr items) "length") (fun n => Normal (strict_eq_num n 0))
   else Normal false)
  = Normal (busy && match items with [] => true | _ => false end).
Proof. destruct busy, items; reflexivity. Qed.

Lemma truthy_message msg : truthy (Str msg) = true <-> msg <> "".
Proof.
  simpl. destruct (String.eqb_spec msg ""); simpl; split; congruence.
Qed.

(** The render function on a state whose collection is an array. *)
Lemma ListCast_on_array props busy items e :
  ListCast props {| cast := Arr items; loading := busy; error := e |} =
  if busy && match items with [] => true | _ => false end
  then Normal loading_view
  else match e with
       | Some msg =>
           if truthy (Str msg) then Normal (error_view msg)
           else bind (map_items thumbnail items) (fun thumbs =>
                  Normal (gallery_view busy thumbs))
       | None =>
           bind (map_items thumbnail items) (fun thumbs =>
             Normal (gallery_view busy thumbs))
       end.
Proof.
  unfold ListCast. cbn [cast loading error].
  rewrite waiting_test. reflexivity.
Qed.



Lemma records_of_nth items members i v :
  records_of items = Some members ->
  nth_error items i = Some v ->
  exists m, record_of v = Some m /\ nth_error members i = Some m.
Proof.
  revert members i.
  induction items as [|x items IH]; intros members i; simpl.
  - destruct i; discriminate.
  - destruct (record_of x) as [mx|] eqn:Hx; [|discriminate].
    destruct (records_of items) as [ms|]; [|discriminate].
    intros [= <-]. destruct i as [|i]; simpl.
    + intros [= <-]. exists mx. auto.
    + intros Hi. apply (IH ms i eq_refl Hi).
Qed.

Lemma records_of_length items members :
  records_of items = Some members -> length members = length items.
Proof.
  revert members.
  induction items as [|x items IH]; intros members; simpl.
  - intros [= <-]. reflexivity.
  - destruct (record_of x); [|discriminate].
    destruct (records_of items) as [ms|]; [|discriminate].
    intros [= <-]. simpl. now rewrite (IH ms eq_refl).
Qed.

(** The anchors of a row of member thumbnails are the thumbnails. *)
Lemma anchors_of_thumbnails members :
  flat_map (by_tag "a") (map thumbnail_of members) = map thumbnail_of members.
Proof.
  induction members as [|m ms IH]; [reflexivity|].
  cbn [map flat_map]. rewrite IH. reflexivity.
Qed.

Lemma gallery_view_thumbs busy thumbs busy' thumbs' :
  gallery_view busy thumbs = gallery_view busy' thumbs' -> thumbs = thumbs'.
Proof. unfold gallery_view, grid. congruence. Qed.

(** Whenever the gallery is what the render function returns, its
    thumbnails are those of the stored records. *)
Lemma gallery_thumbnails props h items members busy thumbs :
  cast h = Arr items ->
  records_of items = Some members ->
  ListCast props h = Normal (gallery_view busy thumbs) ->
  thumbs = map thumbnail_of members.
Proof.
  destruct h as [c l e]. cbn [cast]. intros -> Hrec.
  rewrite ListCast_on_array, (map_items_records _ _ Hrec). cbn [bind].
  destruct (l && _).
  - discriminate.
  - destruct e as [msg|]; [destruct (truthy (Str msg))|].
    + discriminate.
    + intros H. symmetry. apply (gallery_view_thumbs l _ busy _). congruence.
    + intros H. symmetry. apply (gallery_view_thumbs l _ busy _). congruence.
Qed.

(** C4.  When the stored collection is an array of N cast-member records and
    the gallery is rendered, its grid holds exactly N thumbnails, which are
    all the anchors of the view; the thumbnail at position i is built from
    the record at position i of the collection: keyed by the record's id,
    with the record's name as tooltip and as alternative text of the image,
    and images/{slug}_tn.svg as the source of the image. *)
Theorem grid_follows_collection props h items members busy thumbs :
  cast h = Arr items ->
  records_of items = Some members ->
  ListCast props h = Normal (gallery_view busy thumbs) ->
  length thumbs = length items /\
  by_tag "a" (gallery_view busy thumbs) = thumbs /\
  forall i v,
    nth_error items i = Some v ->
    exists m,
      record_of v = Some m /\
      nth_error thumbs i =
        Some (Element "a" (Some (member_id m))
                [("data-tooltip", AVal (Str (member_name m)))]
                [Element "img" None
                   [("src", AStr ("images/" ++ member_slug m ++ "_tn.svg"));
                    ("alt", AVal (Str (member_name m)))] []]).
Proof.
  intros Hc Hrec Hview.
  rewrite (gallery_thumbnails _ _ _ _ _ _ Hc Hrec Hview).
  split; [|split].
  - rewrite length_map. apply records_of_length, Hrec.
  - unfold gallery_view, grid, refresh_button, spinner.
    destruct busy;
      cbn [by_tag flat_map String.eqb Ascii.eqb Bool.eqb app];
      rewrite anchors_of_thumbnails, app_nil_r; reflexivity.
  - intros i v Hi.
    destruct (records_of_nth _ _ _ _ Hrec Hi) as [m [Hm Hnth]].
    exists m. split; [exact Hm|].
    rewrite nth_error_map, Hnth. reflexivity.
Qed.

Lemma grid_follows_collection_witness :
  ListCast Samples.parent Samples.loaded
    = Normal (gallery_view false (map thumbnail_of Samples.members)) /\
  length (map thumbnail_of Samples.members) = 2%nat /\
  by_tag "a" (gallery_view false (map thumbnail_of Samples.members))
    = map thumbnail_of Samples.members.
Proof.
  split; [reflexivity|].
  destruct (grid_follows_collection Samples.parent Samples.loaded
              [Samples.gregg; Samples.ann] Samples.members false
              (map thumbnail_of Samples.members) eq_refl eq_refl eq_refl)
    as [Hlen [Htags _]].
  split; [exact Hlen | exact Htags].
Defined.

(** C9.  In every state where an error is set and the stored collection is a
    non-empty array, whether loading or not, the render function shows the
    error view, which holds no thumbnail and no grid; so when an invocation
    of fetchCast started with a non-empty collection ends with an error set,
    the collection is still stored unchanged but the view no longer shows
    it. *)
Theorem error_hides_loaded_grid props :
  (forall h msg first rest,
     error_set h msg ->
     cast h = Arr (first :: rest) ->
     ListCast props h = Normal (error_view msg) /\
     by_tag "a" (error_view msg) = [] /\
     by_tag "img" (error_view msg) = [] /\
     (forall thumbs, In (grid thumbs) (by_tag "div" (error_view msg)) -> False))
  /\
  (forall fetch before msg first rest,
     cast before = Arr (first :: rest) ->
     error_set (settled fetch before) msg ->
     cast (settled fetch before) = Arr (first :: rest) /\
     ListCast props (settled fetch before) = Normal (error_view msg)).
Proof.
  assert (Hstate : forall h msg first rest,
             error_set h msg -> cast h = Arr (first :: rest) ->
             ListCast props h = Normal (error_view msg)).
  { intros [c l e] msg first rest [He Hne] Hc. cbn [cast error] in *.
    subst c e. rewrite ListCast_on_array.
    apply truthy_message in Hne. rewrite Hne, andb_false_r. reflexivity. }
  split.
  - intros h msg first rest Hset Hc.
    split; [eapply Hstate; eauto|].
    split; [reflexivity|]. split; [reflexivity|].
    intros thumbs. cbn. intros [H|[]]. discriminate H.
  - intros fetch before msg first rest Hc Hset.
    assert (Hsame : cast (settled fetch before) = cast before).
    { destruct Hset as [He _]. revert He.
      run_fetchCast fetch; intros He; try reflexivity. discriminate He. }
    rewrite Hc in Hsame. split; [exact Hsame|].
    eapply Hstate; eauto.
Qed.

Lemma error_hides_loaded_grid_witness :
  cast (settled Samples.not_found Samples.loaded)
    = Arr [Samples.gregg; Samples.ann] /\
  ListCast Samples.parent (settled Samples.not_found Samples.loaded)
    = Normal (error_view "HTTP error! status: 404").
Proof.
  apply (proj2 (error_hides_loaded_grid Samples.parent)
           Samples.not_found Samples.loaded "HTTP error! status: 404"
           Samples.gregg [Samples.ann] eq_refl).
  split; [reflexivity | discriminate].
Defined.

(** C10.  fetchCast does not look at the shape of what the body parses to:
    whatever value it is, it becomes the stored collection, with no error;
    the render that follows goes to the gallery branch and calls [map] on the
    stored value as it stands, which throws a TypeError out of the render
    function when the value is not an array. *)
Theorem fetchCast_stores_unvalidated props fetch h r data :
  fetch "cast.json" = Normal r ->
  ok r = true ->
  json r = Normal data ->
  settled fetch h = {| cast := data; loading := false; error := None |} /\
  ListCast props (settled fetch h)
    = bind (call_map data thumbnail) (fun thumbs =>
        Normal (gallery_view false thumbs)) /\
  ((forall items, data <> Arr items) ->
   exists e, ListCast props (settled fetch h) = Throws e /\
             error_name e = "TypeError").
Proof.
  intros Hr Hok Hjson.
  assert (Hs : settled fetch h
               = {| cast := data; loading := false; error := None |}).
  { run_fetchCast fetch; try congruence;
      injection Hr as <-; congruence. }
  rewrite Hs. split; [reflexivity|]. split; [reflexivity|].
  intros Hna. unfold ListCast. cbn [cast loading error bind].
  destruct data as [ | | | | |items|fields];
    try (eexists; split; reflexivity).
  exfalso. exact (Hna items eq_refl).
Qed.

Lemma fetchCast_stores_unvalidated_witness :
  settled (Samples.serves (Obj [("cast", Arr [Samples.gregg])])) initial
    = {| cast := Obj [("cast", Arr [Samples.gregg])]; loading := false;
         error := None |} /\
  exists e,
    ListCast Samples.parent
      (settled (Samples.serves (Obj [("cast", Arr [Samples.gregg])])) initial)
      = Throws e /\
    error_name e = "TypeError".
Proof.
  destruct (fetchCast_stores_unvalidated Samples.parent
              (Samples.serves (Obj [("cast", Arr [Samples.gregg])])) initial
              (http_response 200 (Normal (Obj [("cast", Arr [Samples.gregg])])))
              (Obj [("cast", Arr [Samples.gregg])])
              eq_refl eq_refl eq_refl) as [Hs [_ Ht]].
  split; [exact Hs|]. apply Ht. intros items H. discriminate H.
Defined.

(** *** The selection callback *)

(** A thumbnail is an anchor without a click handler, and holds none. *)
Lemma thumbnail_inert v t :
  thumbnail v = Normal t ->
  on_click t = None /\ handlers t = [] /\ by_tag "a" t = [t].
Proof.
  unfold thumbnail.
  destruct (get v "id") as [key|]; [|discriminate].
  destruct (get v "name") as [n|]; [|discriminate].
  destruct (get v "slug") as [s|]; [|discriminate].
  cbn [bind]. intros [= <-]. repeat split.
Qed.

Lemma thumbnails_inert items thumbs :
  map_items thumbnail items = Normal thumbs ->
  flat_map handlers thumbs = [] /\
  flat_map (by_tag "a") thumbs = thumbs /\
  Forall (fun t => on_click t = None) thumbs.
Proof.
  revert thumbs.
  induction items as [|v items IH]; intros thumbs; cbn [map_items].
  - intros [= <-]. repeat split. constructor.
  - destruct (thumbnail v) as [t|] eqn:Ht; [|discriminate].
    destruct (map_items thumbnail items) as [ts|]; [|discriminate].
    cbn [bind]. intros [= <-].
    destruct (thumbnail_inert _ _ Ht) as [Hc [Hh Ha]].
    destruct (IH ts eq_refl) as [IHh [IHa IHc]].
    cbn [flat_map]. rewrite Hh, Ha, IHh, IHa.
    repeat split. constructor; assumption.
Qed.

(** The three shapes a rendered view can have. *)
Lemma ListCast_views props h view :
  ListCast props h = Normal view ->
  view = loading_view \/
  (exists msg, view = error_view msg) \/
  (exists items thumbs,
     cast h = Arr items /\
     map_items thumbnail items = Normal thumbs /\
     view = gallery_view (loading h) thumbs).
Proof.
  assert (Hg : bind (call_map (cast h) thumbnail) (fun thumbs =>
                 Normal (gallery_view (loading h) thumbs)) = Normal view ->
               exists items thumbs,
                 cast h = Arr items /\
                 map_items thumbnail items = Normal thumbs /\
                 view = gallery_view (loading h) thumbs).
  { destruct (cast h) as [ | | | | |items|fields]; try discriminate.
    cbn [call_map].
    destruct (map_items thumbnail items) as [thumbs|] eqn:Hm; [|discriminate].
    cbn [bind]. intros [= <-]. exists items, thumbs. auto. }
  unfold ListCast.
  destruct (if loading h then _ else _) as [w|]; [|discriminate].
  cbn [bind]. destruct w.
  - intros [= <-]. auto.
  - destruct (error h) as [msg|]; [destruct (truthy (Str msg))|].
    + intros [= <-]. right. left. exists msg. reflexivity.
    + intros Hv. right. right. auto.
    + intros Hv. right. right. auto.
Qed.

(** C6, as stated, fails: with a parent that supplies [onChoice] and a loaded
    gallery, a click on the first thumbnail does not call the callback (the
    thumbnail has no click handler at all). *)
Lemma selection_not_reported :
  ~ reports_selection Samples.parent Samples.loaded.
Proof.
  intros H.
  specialize (H (Callback "setMemberInfo") [Samples.gregg; Samples.ann]
                false (map thumbnail_of Samples.members) 0%nat Samples.gregg
                (thumbnail_of {| member_id := Num 1;
                                 member_name := "Gregg Bean";
                                 member_slug := "gregg-bean" |})
                eq_refl eq_refl eq_refl eq_refl eq_refl).
  discriminate H.
Qed.

(** C6, amended.  The gallery reads no props: what it renders is the same
    whether or not the parent supplies a selection callback; no thumbnail
    (anchor) of a rendered view carries a click handler, so activating one
    calls nothing; the only click handlers in a rendered view are those of
    the Retry and Refresh buttons, and they run fetchCast. *)
Theorem ListCast_reports_no_selection props h view :
  ListCast props h = Normal view ->
  ListCast {| onChoice := None |} h = Normal view /\
  (forall t, In t (by_tag "a" view) -> on_click t = None) /\
  (forall hd, In hd (handlers view) -> hd = RunFetchCast).
Proof.
  intros Hv. split; [exact Hv|].
  destruct (ListCast_views _ _ _ Hv)
    as [->|[[msg ->]|[items [thumbs [_ [Hmap ->]]]]]].
  - split; intros x [].
  - split.
    + intros x [].
    + intros hd [<-|[]]. reflexivity.
  - destruct (thumbnails_inert _ _ Hmap) as [Hh [Ha Hc]].
    split.
    + intros t. unfold gallery_view, grid, refresh_button, spinner.
      destruct (loading h);
        cbn [by_tag flat_map String.eqb Ascii.eqb Bool.eqb app];
        rewrite Ha, app_nil_r; intros Hin;
        exact (proj1 (Forall_forall _ _) Hc t Hin).
    + intros hd. unfold gallery_view, grid, refresh_button, spinner.
      destruct (loading h);
        cbn [handlers flat_map on_click attribute attr_of String.eqb
             Ascii.eqb Bool.eqb app];
        rewrite Hh; cbn [app]; intros [<-|[]]; reflexivity.
Qed.

Lemma ListCast_reports_no_selection_witness :
  ListCast {| onChoice := None |} Samples.loaded
    = Normal (gallery_view false (map thumbnail_of Samples.members)) /\
  on_click (thumbnail_of {| member_id := Num 1; member_name := "Gregg Bean";
                            member_slug := "gregg-bean" |}) = None.
Proof.
  destruct (ListCast_reports_no_selection Samples.parent Samples.loaded
              (gallery_view false (map thumbnail_of Samples.members)) eq_refl)
    as [Hsame [Hthumbs _]].
  split; [exact Hsame|]. apply Hthumbs. cbn. auto.
Defined.

(* ================================================================= *)
(** ** The counter *)

(** C7.  After a render with a nonzero count the document title is the
    baseline captured at load, then "--", then the count; after a render with
    count zero the document is as it was; the baseline never changes.
    Starting from a page titled T, the title is still T once the counter is
    mounted, T--1 after one activation and T--2 after two. *)
Theorem title_follows_count :
  (forall i n,
     n <> 0%Z ->
     Counter.title (Counter.document (Counter.rendered i n))
       = Counter.pageTitle i ++ "--" ++ number_to_string n) /\
  (forall i, Counter.document (Counter.rendered i 0) = Counter.document i) /\
  (forall i n, Counter.pageTitle (Counter.rendered i n) = Counter.pageTitle i) /\
  (forall doc,
     Counter.pageTitle (Counter.load doc) = Counter.title doc /\
     Counter.document (Counter.load doc) = doc /\
     Counter.title (Counter.document (Counter.click (Counter.load doc)))
       = Counter.title doc ++ "--1" /\
     Counter.title
       (Counter.document (Counter.click (Counter.click (Counter.load doc))))
       = Counter.title doc ++ "--2").
Proof.
  repeat split.
  intros i n Hn. unfold Counter.rendered, Counter.effect. cbn.
  destruct (Z.eqb_spec n 0); [contradiction|reflexivity].
Qed.

Lemma title_follows_count_witness :
  Counter.title
    (Counter.document (Counter.rendered (Counter.load Samples.page) 3))
  = "React App--3".
Proof.
  apply (proj1 title_follows_count (Counter.load Samples.page) 3%Z).
  discriminate.
Defined.

(** C8.  The button shows the fixed text "Click Me " followed by a suffix that
    is empty when the count is zero and "{count} times" otherwise; once
    mounted it shows "Click Me ", after one activation the suffix is
    "1 times". *)
Theorem counter_label :
  (forall n,
     exists suffix,
       Counter.Counter n
         = Element "button" None [("onClick", AHandler (SetCount (n + 1)))]
             [Text "Click Me "; Text suffix] /\
       text_content (Counter.Counter n) = "Click Me " ++ suffix /\
       (n = 0%Z -> suffix = "") /\
       (n <> 0%Z -> suffix = number_to_string n ++ " times")) /\
  (forall doc,
     Counter.displayed (Counter.load doc) = "Click Me " /\
     Counter.displayed (Counter.click (Counter.load doc))
       = "Click Me " ++ "1 times").
Proof.
  split.
  - intros n. unfold Counter.Counter. cbn [strict_eq_num to_string].
    destruct (Z.eqb_spec n 0) as [->|Hn].
    + exists "". repeat split. intros H. contradiction.
    + eexists. repeat split. intros H. contradiction.
  - intros doc. split; reflexivity.
Qed.

Lemma counter_label_witness :
  text_content (Counter.Counter 1) = "Click Me 1 times".
Proof.
  destruct (proj1 counter_label 1%Z) as [suffix [_ [Htext [_ Hsuffix]]]].
  rewrite Htext, Hsuffix; [reflexivity | discriminate].
Defined.

(* ================================================================= *)
(** ** More on fetchCast: the failure paths, and invocations in a row *)

(** X1.  When [fetch] itself rejects, the message of the rejection becomes
    the error, the collection and nothing else is kept, and the body is never
    asked for: the invocation is suspended once only. *)
Theorem fetchCast_transport_failure fetch h e :
  fetch "cast.json" = Throws e ->
  settled fetch h
    = {| cast := cast h; loading := false; error := Some (message e) |} /\
  history fetch h
    = [ Wrote {| cast := cast h; loading := true; error := error h |};
        Wrote {| cast := cast h; loading := true; error := None |};
        Awaiting {| cast := cast h; loading := true; error := None |};
        Wrote {| cast := cast h; loading := true; error := Some (message e) |};
        Wrote {| cast := cast h; loading := false;
                 error := Some (message e) |} ].
Proof.
  intros Hf. run_fetchCast fetch; try discriminate.
  injection Hf as <-. split; reflexivity.
Qed.

Lemma fetchCast_transport_failure_witness :
  settled (fun _ => Throws (TypeError "Failed to fetch")) Samples.loaded
  = {| cast := Arr [Samples.gregg; Samples.ann]; loading := false;
       error := Some "Failed to fetch" |}.
Proof.
  apply (fetchCast_transport_failure
           (fun _ => Throws (TypeError "Failed to fetch")) Samples.loaded
           (TypeError "Failed to fetch") eq_refl).
Defined.

(** X2.  When the response is ok but reading its body as JSON rejects, the
    message of that rejection becomes the error and the collection is kept;
    the invocation was suspended twice, on the request and on the body. *)
Theorem fetchCast_parse_failure fetch h r e :
  fetch "cast.json" = Normal r ->
  ok r = true ->
  json r = Throws e ->
  settled fetch h
    = {| cast := cast h; loading := false; error := Some (message e) |} /\
  history fetch h
    = [ Wrote {| cast := cast h; loading := true; error := error h |};
        Wrote {| cast := cast h; loading := true; error := None |};
        Awaiting {| cast := cast h; loading := true; error := None |};
        Awaiting {| cast := cast h; loading := true; error := None |};
        Wrote {| cast := cast h; loading := true; error := Some (message e) |};
        Wrote {| cast := cast h; loading := false;
                 error := Some (message e) |} ].
Proof.
  intros Hf Hok Hj. run_fetchCast fetch; try discriminate;
    injection Hf as <-; try congruence.
  rewrite Hj in *. match goal with H : Throws _ = Throws _ |- _ =>
                     injection H as <- end.
  split; reflexivity.
Qed.

Lemma fetchCast_parse_failure_witness :
  settled (fun _ => Normal (http_response 200
                              (Throws (Thrown "SyntaxError"
                                         "Unexpected end of JSON input"))))
          Samples.loaded
  = {| cast := Arr [Samples.gregg; Samples.ann]; loading := false;
       error := Some "Unexpected end of JSON input" |}.
Proof.
  apply (fetchCast_parse_failure _ Samples.loaded
           (http_response 200 (Throws (Thrown "SyntaxError"
                                         "Unexpected end of JSON input")))
           (Thrown "SyntaxError" "Unexpected end of JSON input")
           eq_refl eq_refl eq_refl).
Defined.

(** X3.  On a response that is not ok the body is never read: two responses
    that are not ok and carry the same status lead to the same invocation,
    step for step, whatever their bodies hold, and that invocation is
    suspended once only, on the request. *)
Theorem fetchCast_bad_status_skips_body fetch fetch' h r r' :
  fetch "cast.json" = Normal r ->
  fetch' "cast.json" = Normal r' ->
  ok r = false ->
  ok r' = false ->
  status r = status r' ->
  invoke fetch h = invoke fetch' h /\
  suspensions (history fetch h)
    = [ {| cast := cast h; loading := true; error := None |} ].
Proof.
  intros Hf Hf' Hok Hok' Hst.
  unfold history, invoke, fetchCast, try_finally, try_catch, seq, await,
    setLoading, setError, setCast, write, throw, ret.
  cbn [fst snd hooks log cast loading error].
  rewrite Hf, Hf', Hok, Hok', Hst. split; reflexivity.
Qed.

Lemma fetchCast_bad_status_skips_body_witness :
  invoke Samples.not_found Samples.loaded
  = invoke (fun _ => Normal (http_response 404 (Normal Null))) Samples.loaded.
Proof.
  apply (fetchCast_bad_status_skips_body Samples.not_found
           (fun _ => Normal (http_response 404 (Normal Null)))
           Samples.loaded _ _ eq_refl eq_refl eq_refl eq_refl eq_refl).
Defined.

(** X4.  An invocation reads nothing of the state it starts from: the loading
    flag and the error it finds play no part, the collection it finds is
    either kept or replaced.  So it ends the same from two states holding the
    same collection, and invoking again with the same answer changes
    nothing. *)
Theorem fetchCast_forgets_flags fetch h h' :
  cast h = cast h' ->
  settled fetch h = settled fetch h' /\
  settled fetch (settled fetch h) = settled fetch h.
Proof.
  intros Hc. split.
  - run_fetchCast fetch; rewrite ?Hc; reflexivity.
  - run_fetchCast fetch; reflexivity.
Qed.

Lemma fetchCast_forgets_flags_witness :
  settled Samples.not_found
    {| cast := Arr [Samples.gregg; Samples.ann]; loading := true;
       error := Some "Failed to fetch" |}
  = settled Samples.not_found Samples.loaded.
Proof.
  apply (fetchCast_forgets_flags Samples.not_found
           {| cast := Arr [Samples.gregg; Samples.ann]; loading := true;
              error := Some "Failed to fetch" |}
           Samples.loaded eq_refl).
Defined.

(** What one invocation does to the collection, and when it leaves no
    error. *)
Lemma fetchCast_collection fetch h :
  cast (settled fetch h)
    = match path fetch with Fetched data => data | _ => cast h end /\
  loading (settled fetch h) = false /\
  (error (settled fetch h) = None <-> exists data, path fetch = Fetched data).
Proof.
  run_fetchCast fetch; repeat split; try discriminate;
    try (intros [d Hd]; discriminate Hd).
  intros _. eexists. reflexivity.
Qed.

Lemma last_fetched_snoc fetches fetch d :
  last_fetched (fetches ++ [fetch]) d
  = match path fetch with
    | Fetched data => data
    | _ => last_fetched fetches d
    end.
Proof. unfold last_fetched. rewrite fold_left_app. reflexivity. Qed.

Lemma after_snoc fetches fetch h :
  after (fetches ++ [fetch]) h = settled fetch (after fetches h).
Proof. unfold after. rewrite fold_left_app. reflexivity. Qed.

(** X5.  After any number of invocations in a row, started from the state of
    the mount, the collection is the data of the last one that fetched some
    (the empty array if none did): failures, however many, never touch it.
    If there was at least one invocation, loading is off, and the error is
    null exactly when the last one fetched data: an older failure is never
    shown again, an older success never hides the last failure. *)
Theorem collection_is_last_fetched fetches :
  cast (after fetches initial) = last_fetched fetches (Arr []) /\
  forall earlier last,
    fetches = (earlier ++ [last])%list ->
    loading (after fetches initial) = false /\
    (error (after fetches initial) = None
     <-> exists data, path last = Fetched data).
Proof.
  split.
  - induction fetches as [|fetch fetches IH] using rev_ind; [reflexivity|].
    rewrite after_snoc, last_fetched_snoc.
    rewrite (proj1 (fetchCast_collection fetch _)), IH. reflexivity.
  - intros earlier last ->. rewrite after_snoc.
    destruct (fetchCast_collection last (after earlier initial))
      as [_ [Hl He]].
    split; assumption.
Qed.

Lemma collection_is_last_fetched_witness :
  cast (after [Samples.not_found;
               Samples.serves (Arr [Samples.gregg]);
               Samples.not_found;
               (fun _ => Throws (TypeError "Failed to fetch"))] initial)
  = Arr [Samples.gregg] /\
  error (after [Samples.not_found; Samples.serves (Arr [Samples.gregg])]
           initial) = None.
Proof.
  split.
  - apply (proj1 (collection_is_last_fetched
                    [Samples.not_found;
                     Samples.serves (Arr [Samples.gregg]);
                     Samples.not_found;
                     (fun _ => Throws (TypeError "Failed to fetch"))])).
  - apply (proj2 (collection_is_last_fetched
                    [Samples.not_found; Samples.serves (Arr [Samples.gregg])])
                 [Samples.not_found] (Samples.serves (Arr [Samples.gregg]))
                 eq_refl).
    exists (Arr [Samples.gregg]). reflexivity.
Defined.

(* ================================================================= *)
(** ** What is on screen while an invocation is suspended *)

(** Wherever an invocation is suspended, it is with the collection it found,
    loading on and no error. *)
Lemma suspended_state fetch h s :
  In s (suspensions (history fetch h)) ->
  s = {| cast := cast h; loading := true; error := None |}.
Proof.
  run_fetchCast fetch; cbn [suspensions In]; intuition congruence.
Qed.

(** The shapes of a rendered view, with the test that selected them. *)
Lemma ListCast_views_tested props h view :
  ListCast props h = Normal view ->
  view = loading_view \/
  (exists msg, error h = Some msg /\ view = error_view msg) \/
  (exists items thumbs,
     cast h = Arr items /\
     map_items thumbnail items = Normal thumbs /\
     view = gallery_view (loading h) thumbs).
Proof.
  assert (Hg : bind (call_map (cast h) thumbnail) (fun thumbs =>
                 Normal (gallery_view (loading h) thumbs)) = Normal view ->
               exists items thumbs,
                 cast h = Arr items /\
                 map_items thumbnail items = Normal thumbs /\
                 view = gallery_view (loading h) thumbs).
  { destruct (cast h) as [ | | | | |items|fields]; try discriminate.
    cbn [call_map].
    destruct (map_items thumbnail items) as [thumbs|] eqn:Hm; [|discriminate].
    cbn [bind]. intros [= <-]. exists items, thumbs. auto. }
  unfold ListCast.
  destruct (if loading h then _ else _) as [w|]; [|discriminate].
  cbn [bind]. destruct w.
  - intros [= <-]. auto.
  - destruct (error h) as [msg|]; [destruct (truthy (Str msg))|].
    + intros [= <-]. right. left. exists msg. auto.
    + intros Hv. right. right. auto.
    + intros Hv. right. right. auto.
Qed.

(** No element of a thumbnail takes a click. *)
Lemma thumbnail_elements_inert v t :
  thumbnail v = Normal t ->
  Forall (fun x => on_click x = None) (elements t).
Proof.
  unfold thumbnail.
  destruct (get v "id") as [key|]; [|discriminate].
  destruct (get v "name") as [n|]; [|discriminate].
  destruct (get v "slug") as [s|]; [|discriminate].
  cbn [bind]. intros [= <-]. repeat constructor.
Qed.

Lemma thumbnails_elements_inert items thumbs :
  map_items thumbnail items = Normal thumbs ->
  Forall (fun x => on_click x = None) (flat_map elements thumbs).
Proof.
  revert thumbs.
  induction items as [|v items IH]; intros thumbs; cbn [map_items].
  - intros [= <-]. constructor.
  - destruct (thumbnail v) as [t|] eqn:Ht; [|discriminate].
    destruct (map_items thumbnail items) as [ts|]; [|discriminate].
    cbn [bind]. intros [= <-]. cbn [flat_map].
    apply Forall_app. split.
    + exact (thumbnail_elements_inert _ _ Ht).
    + exact (IH ts eq_refl).
Qed.

(** X6.  While an invocation is suspended, the view offers nothing that could
    start another one: whatever it renders then, every element of it that has
    a click handler is disabled (the Refresh button; the Retry button is not
    on screen, the error having been cleared).  Invocations started from the
    rendered controls therefore never overlap. *)
Theorem no_second_invocation_while_suspended props fetch h s view b :
  In s (suspensions (history fetch h)) ->
  ListCast props s = Normal view ->
  In b (elements view) ->
  on_click b <> None ->
  disabled b = true.
Proof.
  intros Hs Hv Hb Hclick.
  rewrite (suspended_state _ _ _ Hs) in Hv.
  destruct (ListCast_views_tested _ _ _ Hv)
    as [->|[[msg [He _]]|[items [thumbs [_ [Hmap ->]]]]]].
  - cbn in Hb. destruct Hb as [<-|[]]. now contradiction Hclick.
  - discriminate He.
  - cbn [loading] in Hb.
    unfold gallery_view, grid, refresh_button, spinner in Hb.
    cbn [elements flat_map app] in Hb.
    rewrite app_nil_r in Hb.
    destruct Hb as [<-|[<-|[<-|[<-|Hb]]]];
      try reflexivity; try now contradiction Hclick.
    pose proof (thumbnails_elements_inert _ _ Hmap) as Hin.
    rewrite Forall_forall in Hin. now contradiction Hclick; apply Hin.
Qed.

Lemma no_second_invocation_while_suspended_witness :
  disabled (refresh_button true) = true.
Proof.
  apply (no_second_invocation_while_suspended Samples.parent
           Samples.not_found Samples.loaded
           {| cast := Arr [Samples.gregg; Samples.ann]; loading := true;
              error := None |}
           (gallery_view true (map thumbnail_of Samples.members))
           (refresh_button true)).
  - cbn. auto.
  - reflexivity.
  - cbn. auto.
  - discriminate.
Defined.

(** X7.  As long as the collection is the empty array, as it is at the mount,
    a suspended invocation shows the loading placeholder and nothing else. *)
Theorem placeholder_until_first_data props fetch h s :
  cast h = Arr [] ->
  In s (suspensions (history fetch h)) ->
  ListCast props s = Normal loading_view.
Proof.
  intros Hc Hs. rewrite (suspended_state _ _ _ Hs), Hc. reflexivity.
Qed.

Lemma placeholder_until_first_data_witness :
  ListCast Samples.parent {| cast := Arr []; loading := true; error := None |}
  = Normal loading_view.
Proof.
  apply (placeholder_until_first_data Samples.parent
           (Samples.serves (Arr [Samples.gregg])) initial _ eq_refl).
  cbn. auto.
Defined.

(** X8.  Once a non-empty collection of records is stored, a suspended
    invocation keeps its thumbnails on screen, under the Refresh button shown
    busy and disabled: no loading placeholder, and no error view even if an
    error was on screen when the invocation started. *)
Theorem refresh_keeps_grid props fetch h members s :
  collection_of (cast h) = Some members ->
  members <> [] ->
  In s (suspensions (history fetch h)) ->
  ListCast props s = Normal (gallery_view true (map thumbnail_of members)).
Proof.
  intros Hc Hne Hs. rewrite (suspended_state _ _ _ Hs).
  destruct (cast h) as [ | | | | |items|fields]; try discriminate.
  cbn [collection_of] in Hc.
  rewrite ListCast_on_array, (map_items_records _ _ Hc).
  destruct items as [|v items].
  - cbn in Hc. injection Hc as <-. contradiction.
  - reflexivity.
Qed.

Lemma refresh_keeps_grid_witness :
  ListCast Samples.parent
    {| cast := Arr [Samples.gregg; Samples.ann]; loading := true;
       error := None |}
  = Normal (gallery_view true (map thumbnail_of Samples.members)).
Proof.
  apply (refresh_keeps_grid Samples.parent Samples.not_found
           {| cast := Arr [Samples.gregg; Samples.ann]; loading := false;
              error := Some "Failed to fetch" |}
           Samples.members _ eq_refl).
  - discriminate.
  - cbn. auto.
Defined.

(** X9.  From any state whatever, an error on screen included, an invocation
    that fetches a collection of records ends with that collection rendered
    in the gallery, the Refresh button idle. *)
Theorem success_shows_gallery props fetch h data members :
  path fetch = Fetched data ->
  collection_of data = Some members ->
  ListCast props (settled fetch h)
  = Normal (gallery_view false (map thumbnail_of members)).
Proof.
  intros Hp Hc.
  destruct (fetchCast_collection fetch h) as [Hcast [Hload Herr]].
  rewrite Hp in Hcast.
  assert (He : error (settled fetch h) = None)
    by (apply Herr; exists data; exact Hp).
  destruct (settled fetch h) as [c l e]. cbn [cast loading error] in *.
  subst c l e.
  destruct data as [ | | | | |items|fields]; try discriminate.
  cbn [collection_of] in Hc.
  rewrite ListCast_on_array, (map_items_records _ _ Hc). reflexivity.
Qed.

Lemma success_shows_gallery_witness :
  ListCast Samples.parent
    (settled (Samples.serves (Arr [Samples.gregg; Samples.ann]))
       {| cast := Arr []; loading := false;
          error := Some "HTTP error! status: 404" |})
  = Normal (gallery_view false (map thumbnail_of Samples.members)).
Proof.
  apply (success_shows_gallery Samples.parent
           (Samples.serves (Arr [Samples.gregg; Samples.ann]))
           {| cast := Arr []; loading := false;
              error := Some "HTTP error! status: 404" |}
           (Arr [Samples.gregg; Samples.ann]) Samples.members
           eq_refl eq_refl).
Defined.

(** X17.  A failure whose message is empty is not shown: the error is stored
    as the empty string, which does not pass [if (error)], so the render that
    follows shows the gallery of the collection kept from before, with nothing
    telling that the invocation failed. *)
Theorem empty_message_failure_is_silent props fetch h members :
  error (settled fetch h) = Some "" ->
  collection_of (cast h) = Some members ->
  ListCast props (settled fetch h)
  = Normal (gallery_view false (map thumbnail_of members)).
Proof.
  intros He Hc.
  destruct (fetchCast_collection fetch h) as [Hcast [Hload Herr]].
  assert (Hkeep : cast (settled fetch h) = cast h).
  { rewrite Hcast. destruct (path fetch) as [data| | | ] eqn:Hp;
      try reflexivity.
    assert (Hnone : error (settled fetch h) = None)
      by (apply Herr; exists data; reflexivity).
    congruence. }
  clear Hcast Herr.
  destruct (settled fetch h) as [c l e]. cbn [cast loading error] in *.
  subst c l e.
  destruct (cast h) as [ | | | | |items|fields]; try discriminate.
  cbn [collection_of] in Hc.
  rewrite ListCast_on_array, (map_items_records _ _ Hc). reflexivity.
Qed.

Lemma empty_message_failure_is_silent_witness :
  ListCast Samples.parent
    (settled (fun _ => Throws (Error "")) Samples.loaded)
  = Normal (gallery_view false (map thumbnail_of Samples.members)).
Proof.
  apply (empty_message_failure_is_silent Samples.parent
           (fun _ => Throws (Error "")) Samples.loaded Samples.members
           eq_refl eq_refl).
Defined.

(* ================================================================= *)
(** ** Records that are not what the gallery expects *)



(** Whatever the callback throws is a TypeError. *)
Lemma thumbnail_throws_TypeError v e :
  thumbnail v = Throws e -> error_name e = "TypeError".
Proof.
  destruct v; try discriminate; intros [= <-]; reflexivity.
Qed.

Lemma map_items_null items :
  In Null items \/ In Undefined items ->
  exists e, map_items thumbnail items = Throws e /\ error_name e = "TypeError".
Proof.
  induction items as [|v items IH]; cbn [In map_items].
  - intros [[]|[]].
  - intros Hin.
    destruct (thumbnail v) as [t|e] eqn:Ht.
    + assert (Hrest : In Null items \/ In Undefined items).
      { destruct Hin as [[->|H]|[->|H]]; auto; discriminate Ht. }
      destruct (IH Hrest) as [e [-> He]]. exists e. auto.
    + exists e. split; [reflexivity|].
      exact (thumbnail_throws_TypeError _ _ Ht).
Qed.

(** X11.  One null (or undefined) entry in the stored array is enough to
    take the whole gallery down: unless the error view is shown instead, the
    render function throws a TypeError and renders no thumbnail at all. *)
Theorem null_member_breaks_gallery props h items :
  cast h = Arr items ->
  In Null items \/ In Undefined items ->
  (forall msg, ~ error_set h msg) ->
  exists e, ListCast props h = Throws e /\ error_name e = "TypeError".
Proof.
  intros Hc Hin Hno. destruct h as [c busy e]. cbn [cast] in Hc. subst c.
  rewrite ListCast_on_array.
  destruct (map_items_null _ Hin) as [err [-> Herr]].
  assert (Hitems : match items with [] => true | _ :: _ => false end = false).
  { destruct items; [destruct Hin as [[]|[]]|reflexivity]. }
  rewrite Hitems, andb_false_r.
  destruct e as [msg|]; [|exists err; auto].
  destruct (truthy (Str msg)) eqn:Ht; [|exists err; auto].
  exfalso. apply (Hno msg). split; [reflexivity|].
  now apply truthy_message.
Qed.

Lemma null_member_breaks_gallery_witness :
  exists e,
    ListCast Samples.parent
      {| cast := Arr [Samples.gregg; Null; Samples.ann]; loading := false;
         error := None |} = Throws e /\
    error_name e = "TypeError".
Proof.
  apply (null_member_breaks_gallery Samples.parent
           {| cast := Arr [Samples.gregg; Null; Samples.ann];
              loading := false; error := None |}
           [Samples.gregg; Null; Samples.ann] eq_refl).
  - left. cbn. auto.
  - intros msg [H _]. discriminate H.
Defined.




Lemma length_append (s t : string) :
  String.length (s ++ t) = (String.length s + String.length t)%nat.
Proof. induction s as [|c s IH]; cbn; [reflexivity | now rewrite IH]. Qed.

Lemma append_cancel_r (s t q : string) : s ++ q = t ++ q -> s = t.
Proof.
  revert t. induction s as [|c s IH]; intros [|d t]; cbn.
  - reflexivity.
  - intros H. apply (f_equal String.length) in H. cbn in H.
    rewrite length_append in H. lia.
  - intros H. apply (f_equal String.length) in H. cbn in H.
    rewrite length_append in H. lia.
  - intros [= -> H]. f_equal. auto.
Qed.

(** X13.  The image source is images/{slug}_tn.svg and nothing else of the
    record enters it: the thumbnails of two records have the same image
    source exactly when the records have the same slug. *)
Theorem image_source_determines_slug v v' m m' t t' :
  record_of v = Some m ->
  record_of v' = Some m' ->
  thumbnail v = Normal t ->
  thumbnail v' = Normal t' ->
  map (attribute "src") (by_tag "img" t)
    = map (attribute "src") (by_tag "img" t')
  <-> member_slug m = member_slug m'.
Proof.
  intros Hm Hm' Ht Ht'.
  rewrite (thumbnail_record _ _ Hm) in Ht.
  rewrite (thumbnail_record _ _ Hm') in Ht'.
  injection Ht as <-. injection Ht' as <-.
  cbn. split.
  - intros [= H]. eapply append_cancel_r. exact H.
  - intros ->. reflexivity.
Qed.

Lemma image_source_determines_slug_witness :
  map (attribute "src") (by_tag "img" (thumbnail_of
         {| member_id := Num 1; member_name := "Gregg Bean";
            member_slug := "gregg-bean" |}))
  <> map (attribute "src") (by_tag "img" (thumbnail_of
         {| member_id := Num 2; member_name := "Ann Lee";
            member_slug := "ann-lee" |})).
Proof.
  intros H.
  apply (image_source_determines_slug Samples.gregg Samples.ann _ _ _ _
           eq_refl eq_refl eq_refl eq_refl) in H.
  discriminate H.
Defined.

(* ================================================================= *)
(** ** More on the counter *)

Lemma clicks_succ n i :
  Counter.clicks (S n) i = Counter.click (Counter.clicks n i).
Proof. reflexivity. Qed.

Lemma click_rendered i :
  Counter.click i = Counter.rendered i (Counter.count i + 1).
Proof. reflexivity. Qed.

(** The state after [n] activations. *)
Lemma clicks_state n doc :
  Counter.count (Counter.clicks n (Counter.load doc)) = Z.of_nat n /\
  Counter.pageTitle (Counter.clicks n (Counter.load doc)) = Counter.title doc /\
  Counter.document (Counter.clicks n (Counter.load doc))
    = match n with
      | O => doc
      | S _ => {| Counter.title :=
                    Counter.title doc ++ "--" ++ number_to_string (Z.of_nat n) |}
      end.
Proof.
  induction n as [|n [IHc [IHp IHd]]]; [repeat split|].
  rewrite clicks_succ, click_rendered.
  unfold Counter.rendered, Counter.effect.
  cbn [Counter.count Counter.pageTitle Counter.document truthy to_string].
  rewrite IHc, IHp, Nat2Z.inj_succ, Z.add_1_r.
  destruct (Z.eqb_spec (Z.succ (Z.of_nat n)) 0) as [E|_]; [lia|].
  repeat split.
Qed.

(** X14.  After n activations from the mount (n within the range in which
    JavaScript numbers count exactly) the count is n, the baseline is still
    the title the page had at load, the document title is that baseline
    followed by "--n" (untouched while n is 0), and the button shows
    "Click Me n times" (just "Click Me " while n is 0). *)
Theorem clicks_accumulate n doc :
  (Z.of_nat n <= 2 ^ 53)%Z ->
  Counter.count (Counter.clicks n (Counter.load doc)) = Z.of_nat n /\
  Counter.pageTitle (Counter.clicks n (Counter.load doc)) = Counter.title doc /\
  Counter.document (Counter.clicks n (Counter.load doc))
    = match n with
      | O => doc
      | S _ => {| Counter.title :=
                    Counter.title doc ++ "--" ++ number_to_string (Z.of_nat n) |}
      end /\
  Counter.displayed (Counter.clicks n (Counter.load doc))
    = match n with
      | O => "Click Me "
      | S _ => "Click Me " ++ number_to_string (Z.of_nat n) ++ " times"
      end.
Proof.
  intros _.
  destruct (clicks_state n doc) as [Hc [Hp Hd]]. repeat split; try assumption.
  unfold Counter.displayed, Counter.Counter. rewrite Hc.
  destruct n as [|n]; [reflexivity|].
  cbn [strict_eq_num to_string].
  destruct (Z.eqb_spec (Z.of_nat (S n)) 0) as [E|_]; [lia|]. reflexivity.
Qed.

Lemma clicks_accumulate_witness :
  Counter.clicks 12 (Counter.load Samples.page)
  = {| Counter.pageTitle := "React App"; Counter.count := 12;
       Counter.document := {| Counter.title := "React App--12" |} |} /\
  Counter.displayed (Counter.clicks 12 (Counter.load Samples.page))
  = "Click Me 12 times".
Proof.
  destruct (clicks_accumulate 12 Samples.page ltac:(cbn; discriminate))
    as [Hc [Hp [Hd Ht]]].
  split; [|exact Ht].
  destruct (Counter.clicks 12 (Counter.load Samples.page)) as [p c d].
  cbn [Counter.count Counter.pageTitle Counter.document] in *.
  rewrite Hc, Hp, Hd. reflexivity.
Defined.

(** X15.  From the first activation on, the document title never is the
    title of the loaded page again: nothing the counter does restores it. *)
Theorem title_never_restored n doc :
  n <> O ->
  (Z.of_nat n <= 2 ^ 53)%Z ->
  Counter.title (Counter.document (Counter.clicks n (Counter.load doc)))
  <> Counter.title doc.
Proof.
  intros Hn _.
  destruct (clicks_state n doc) as [_ [_ Hd]]. rewrite Hd.
  destruct n as [|n]; [contradiction|]. cbn [Counter.title].
  intros H. apply (f_equal String.length) in H.
  rewrite length_append in H. cbn in H. lia.
Qed.

Lemma title_never_restored_witness :
  Counter.title
    (Counter.document (Counter.clicks 3 (Counter.load Samples.page)))
  <> "React App".
Proof.
  apply (title_never_restored 3 Samples.page);
    [discriminate | cbn; discriminate].
Defined.

(** Running the effect again with the same count changes nothing. *)
Lemma effect_idempotent pt n doc :
  Counter.effect pt n (Counter.effect pt n doc) = Counter.effect pt n doc.
Proof. unfold Counter.effect. destruct (truthy (Num n)); reflexivity. Qed.

Lemma step_agrees i e :
  Counter.document i
    = Counter.effect (Counter.pageTitle i) (Counter.count i)
        (Counter.document i) ->
  Counter.step i e = Counter.step_with_deps i e /\
  Counter.document (Counter.step i e)
    = Counter.effect (Counter.pageTitle (Counter.step i e))
        (Counter.count (Counter.step i e))
        (Counter.document (Counter.step i e)).
Proof.
  intros Hst. destruct e; cbn [Counter.step Counter.step_with_deps].
  - rewrite click_rendered. cbn [on_click attribute attr_of Counter.Counter
                                   String.eqb Ascii.eqb Bool.eqb].
    unfold Counter.rendered, Counter.rendered_with_deps.
    cbn [Counter.count Counter.pageTitle Counter.document].
    replace (Counter.count i + 1 =? Counter.count i)%Z with false
      by (symmetry; apply Z.eqb_neq; lia).
    cbn [andb]. split; [reflexivity|]. symmetry. apply effect_idempotent.
  - unfold Counter.rendered, Counter.rendered_with_deps.
    cbn [Counter.count Counter.pageTitle Counter.document].
    rewrite Z.eqb_refl, String.eqb_refl. cbn [andb].
    rewrite <- Hst. split; [reflexivity|exact Hst].
Qed.

(** X16.  The rewrite of the effect proposed in the comment inside Counter
    (an [if] in place of [&&], and the dependency list [count, pageTitle])
    changes nothing that can be observed: through any sequence of
    activations and renders, the count, the baseline and the document title
    are the same as with the effect as written. *)
Theorem effect_rewrite_equivalent events doc :
  fold_left Counter.step events (Counter.load doc)
  = fold_left Counter.step_with_deps events (Counter.load_with_deps doc).
Proof.
  change (Counter.load_with_deps doc) with (Counter.load doc).
  assert (Hst : Counter.document (Counter.load doc)
                = Counter.effect (Counter.pageTitle (Counter.load doc))
                    (Counter.count (Counter.load doc))
                    (Counter.document (Counter.load doc))) by reflexivity.
  revert Hst. generalize (Counter.load doc) as i.
  induction events as [|e events IH]; intros i Hst; [reflexivity|].
  cbn [fold_left].
  destruct (step_agrees i e Hst) as [Heq Hst'].
  rewrite <- Heq. apply IH. exact Hst'.
Qed.
